(** * terra.go: the transaction service of the LCD client

    A shallow embedding of [service/transaction.go] and
    [service/transaction_schema.go].  The service is a thin layer over two
    external collaborators, the amino JSON codec and the HTTP client; both
    are kept abstract (records of functions), so every theorem below holds
    for any codec and any client.

    Go features and how they are rendered here:
    - a method returning [(T, error)] returns a pair [T * option error]
      ([None] is the nil error);
    - a Go map is a reference: a value of map type is [None] (the nil map) or
      [Some l], a location of the store [maps];
    - [*int64] is [None] (nil) or [Some l], a location of the store [ints];
    - a run-time panic ends the computation with [Panicked];
    - calls that reach the outside world (the HTTP request, [time.Sleep])
      are recorded, in order, in the [trace] of the world. *)

From Stdlib Require Import ZArith Strings.Byte.
From stdpp Require Import base option list strings gmap fin_maps pretty.

Local Open Scope Z_scope.
Local Open Scope string_scope.
Local Open Scope list_scope.

(** ** Errors ([github.com/pkg/errors]) *)

Module errors.

(** [fundamental] is what [errors.New] builds, [withMessage] what
    [errors.Wrap] builds (the recorded stack has no observable effect on
    [Error()] and is left out). *)
Inductive error : Type :=
| fundamental (msg : string)
| withMessage (cause : error) (msg : string).

Definition New (message : string) : error := fundamental message.

(** [errors.Wrap] returns nil when [err] is nil. *)
Definition Wrap (err : option error) (message : string) : option error :=
  match err with
  | None => None
  | Some e => Some (withMessage e message)
  end.

(** The [Error()] method. *)
Fixpoint Error (e : error) : string :=
  match e with
  | fundamental msg => msg
  | withMessage cause msg => msg +:+ ": " +:+ Error cause
  end.

End errors.

Export errors(error).

(** A fallible external call: the value, or the error. *)
Definition result (A : Type) : Type := (A + error)%type.

(** ** Types of the SDK that the service passes through

    Only their shape matters to the service: it copies fields and never
    computes with them, apart from [TxResponse.Code] and [TxResponse.RawLog]. *)

Module cosmostypes.

(** [sdk.Int] wraps a [*big.Int]; its zero value holds the nil pointer. *)
Definition Int : Type := option Z.

(** [sdk.Msg] is an interface; a message is known here by its route, its
    type and its amino JSON value. *)
Record Msg : Type := { Route : string; Type_ : string; Value : string }.

Record Coin : Type := { Denom : string; Amount : Z }.
Definition Coins : Type := list Coin.

(** [sdk.Dec] is a fixed-point decimal, 18 digits, kept as its scaled
    integer. *)
Record DecCoin : Type := { DecDenom : string; DecAmount : Z }.
Definition DecCoins : Type := list DecCoin.

Record TxResponse : Type := {
  Height : Z;        (* int64 *)
  TxHash : string;
  Code : Z;          (* uint32 *)
  Data : string;
  RawLog : string;
  Info : string;
  GasWanted : Z;     (* int64 *)
  GasUsed : Z;       (* int64 *)
  Timestamp : string
}.

(** [cosmostypes.TxResponse{}] *)
Definition TxResponse_zero : TxResponse :=
  {| Height := 0; TxHash := ""; Code := 0; Data := ""; RawLog := "";
     Info := ""; GasWanted := 0; GasUsed := 0; Timestamp := "" |}.

End cosmostypes.

Module abcitypes.
(** [CodeTypeOK uint32 = 0] *)
Definition CodeTypeOK : Z := 0.
End abcitypes.

Module terraauth.

Record StdFee : Type := { Amount : cosmostypes.Coins; Gas : Z (* uint64 *) }.

Definition StdFee_zero : StdFee := {| Amount := []; Gas := 0 |}.

Record StdSignature : Type := { PubKey : string; Signature : list byte }.

Record StdTx : Type := {
  Msgs : list cosmostypes.Msg;
  Fee : StdFee;
  Signatures : list StdSignature;
  Memo : string
}.

Record StdSignMsg : Type := {
  sm_ChainID : string;
  sm_AccountNumber : Z;   (* uint64 *)
  sm_Sequence : Z;        (* uint64 *)
  sm_Fee : StdFee;
  sm_Msgs : list cosmostypes.Msg;
  sm_Memo : string
}.

End terraauth.

Module rest.

(** [rest.BaseReq] of the SDK. *)
Record BaseReq : Type := {
  From_ : string;
  Memo : string;
  ChainID : string;
  AccountNumber : Z;
  Sequence : Z;
  Fees : cosmostypes.Coins;
  GasPrices : cosmostypes.DecCoins;
  Gas : string;
  GasAdjustment : string;
  Simulate : bool
}.

End rest.

Module cosmosauthrest.

(** [BroadcastReq] of [x/auth/client/rest]. *)
Record BroadcastReq : Type := { Tx : terraauth.StdTx; Mode : string }.

End cosmosauthrest.

(** ** [types] of this repository *)

Module types.

(** Modelled from the spec: [types.BroadcastMode] is not among the sources.
    The glossary calls it "a request parameter controlling whether the
    remote node waits for block inclusion", and the service converts it
    with [string(mode)], so it is a named string type. *)
Record BroadcastMode : Type := { mode_name : string }.

(** The conversion [string(mode)]. *)
Definition string_of_mode (mode : BroadcastMode) : string := mode_name mode.

(** Modelled from the spec: [types.Q], "a query filter", is not among the
    sources.  The service stores an [int64] under a string key of it and
    formats every element with ["%v"], so it is [map[string]interface{}]: an
    object of the store [maps], of type [gmap string value].  The dynamic
    types covered by [value] are the ones that occur in a tag filter. *)
Inductive value : Type :=
| VInt64 (n : Z)
| VString (s : string)
| VBool (b : bool)
| VNil.

End types.

Export types(value, VInt64, VString, VBool, VNil).

(** [fmt.Sprintf("%v", v)] *)
Definition Sprintf_v (v : value) : string :=
  match v with
  | VInt64 n => pretty n
  | VString s => s
  | VBool true => "true"
  | VBool false => "false"
  | VNil => "<nil>"
  end.

(** ** The store, the trace and the monad of computations *)

Definition loc : Type := positive.

(** [context.Context] is opaque to the service. *)
Inductive Context : Type := Ctx (id : nat).

Module http.
Inductive Method : Type := MethodGet | MethodPost.
End http.

Module httpclient.

(** [httpclient.RequestPayload].  [Query] is nil or the map made for this
    payload alone, so its contents are carried by value; [Body] is the
    reader over the marshalled bytes, nil when the request has no body. *)
Record RequestPayload : Type := {
  Context_ : Context;
  Method : http.Method;
  Path : string;
  Query : option (gmap string string);
  Body : option (list byte)
}.

End httpclient.

Export httpclient(RequestPayload).

(** [time.Duration] counts nanoseconds. *)
Module time.
Definition Duration : Type := Z.
Definition Second : Duration := 1000000000.
End time.

Inductive Event : Type :=
| EvRequest (payload : RequestPayload)
| EvSleep (d : time.Duration).

Record World : Type := {
  ints : gmap loc Z;
  maps : gmap loc (gmap string value);
  trace : list Event
}.

Inductive outcome (A : Type) : Type :=
| Returned (a : A)
| Panicked (msg : string).
Arguments Returned {A} a.
Arguments Panicked {A} msg.

Definition M (A : Type) : Type := World → outcome A * World.

Definition ret {A} (a : A) : M A := λ w, (Returned a, w).

Definition bind {A B} (m : M A) (k : A → M B) : M B := λ w,
  match m w with
  | (Returned a, w') => k a w'
  | (Panicked msg, w') => (Panicked msg, w')
  end.

Notation "x ←' m ; k" := (bind m (λ x, k))
  (at level 100, m at next level, right associativity, only parsing).
Notation "m ;;' k" := (bind m (λ _, k))
  (at level 100, right associativity, only parsing).

(** *** Primitive operations on the world *)

Definition nil_map_panic : string := "assignment to entry in nil map".
Definition bad_pointer_panic : string :=
  "invalid memory address or nil pointer dereference".

(** [*p] for [p : *int64], [p] not nil.  Go has no dangling pointer; a
    location outside the store is treated as an invalid address. *)
Definition load_int64 (p : loc) : M Z := λ w,
  match ints w !! p with
  | Some n => (Returned n, w)
  | None => (Panicked bad_pointer_panic, w)
  end.

(** [m[k] = v]: a panic on the nil map, an update in place otherwise. *)
Definition map_assign (m : option loc) (k : string) (v : value) : M unit := λ w,
  match m with
  | None => (Panicked nil_map_panic, w)
  | Some l =>
      match maps w !! l with
      | Some o =>
          (Returned tt,
           {| ints := ints w; maps := <[l := <[k := v]> o]> (maps w);
              trace := trace w |})
      | None => (Panicked bad_pointer_panic, w)
      end
  end.

(** The entries that [range m] visits: none for the nil map. *)
Definition map_entries (m : option loc) : M (gmap string value) := λ w,
  match m with
  | None => (Returned ∅, w)
  | Some l =>
      match maps w !! l with
      | Some o => (Returned o, w)
      | None => (Panicked bad_pointer_panic, w)
      end
  end.

(** [time.Sleep(d)] *)
Definition Sleep (d : time.Duration) : M unit := λ w,
  (Returned tt,
   {| ints := ints w; maps := maps w; trace := trace w ++ [EvSleep d] |}).

(** ** The codec and the HTTP client *)

(** The request body of [EstimateFee] (an anonymous struct in the source). *)
Record EstimateFeeReq : Type := {
  ef_BaseReq : rest.BaseReq;
  ef_Msgs : list cosmostypes.Msg
}.

(** The response body of [EstimateFee] (an anonymous struct in the source). *)
Record EstimateFeeResult : Type := { r_Fee : terraauth.StdFee }.
Record EstimateFeeBody : Type := {
  b_Height : string;
  b_Result : EstimateFeeResult
}.

(** [service/transaction_schema.go] *)
Record QueryTxRequest : Type := {
  Page : option loc;     (* *int64 *)
  Limit : option loc;    (* *int64 *)
  Query : option loc     (* types.Q *)
}.

Record QueryTxResponse : Type := {
  TotalCount : cosmostypes.Int;
  Count : cosmostypes.Int;
  PageNumber : cosmostypes.Int;
  PageTotal : cosmostypes.Int;
  qr_Limit : cosmostypes.Int;
  Txs : list cosmostypes.TxResponse
}.

(** [QueryTxResponse{}] *)
Definition QueryTxResponse_zero : QueryTxResponse :=
  {| TotalCount := None; Count := None; PageNumber := None;
     PageTotal := None; qr_Limit := None; Txs := [] |}.

(** What the service hands to [MarshalJSON]. *)
Inductive marshalled : Type :=
| OfBroadcastReq (req : cosmosauthrest.BroadcastReq)
| OfEstimateFeeReq (req : EstimateFeeReq).

(** [*codec.Codec]: only [MarshalJSON] is used, and it can fail. *)
Record Codec : Type := { MarshalJSON : marshalled → result (list byte) }.

(** The type of the variable that [RequestJSON] decodes into. *)
Inductive target : Type := TTxResponse | TQueryTxResponse | TEstimateFeeBody.

Definition decoded (t : target) : Type :=
  match t with
  | TTxResponse => cosmostypes.TxResponse
  | TQueryTxResponse => QueryTxResponse
  | TEstimateFeeBody => EstimateFeeBody
  end.

(** [httpclient.Client].  [respond] is the remote end: what a request
    yields may depend on everything that happened before it. *)
Record Client : Type := {
  client_Codec : Codec;
  respond : ∀ t : target, list Event → RequestPayload → result (decoded t)
}.

(** [client.RequestJSON(payload, &body)]: the request is recorded, and the
    call yields the decoded body or the client's error. *)
Definition RequestJSON (c : Client) (t : target) (payload : RequestPayload)
  : M (result (decoded t)) := λ w,
  (Returned (respond c t (trace w) payload),
   {| ints := ints w; maps := maps w;
      trace := trace w ++ [EvRequest payload] |}).

(** ** The service *)

Record transactionService : Type := { codec : Codec; client : Client }.

Definition NewTransactionService (c : Client) : transactionService :=
  {| codec := client_Codec c; client := c |}.

(** [fmt.Sprintf("/txs/%s", txHash)] *)
Definition Sprintf_txs (txHash : string) : string := "/txs/" +:+ txHash.

Definition GetTxByHash (svc : transactionService) (ctx : Context)
    (txHash : string) : M (cosmostypes.TxResponse * option error) :=
  let payload :=
    {| httpclient.Context_ := ctx;
       httpclient.Method := http.MethodGet;
       httpclient.Path := Sprintf_txs txHash;
       httpclient.Query := None;
       httpclient.Body := None |} in
  r ←' RequestJSON (client svc) TTxResponse payload;
  match r with
  | inr err =>
      ret (cosmostypes.TxResponse_zero, errors.Wrap (Some err) "request json")
  | inl body => ret (body, None)
  end.

(** [payload.Query[k] = v], on a payload whose map was made. *)
Definition assign_query (payload : RequestPayload) (k v : string) : RequestPayload :=
  {| httpclient.Context_ := httpclient.Context_ payload;
     httpclient.Method := httpclient.Method payload;
     httpclient.Path := httpclient.Path payload;
     httpclient.Query := <[k := v]> <$> httpclient.Query payload;
     httpclient.Body := httpclient.Body payload |}.

(** The loop [for k, v := range q { payload.Query[k] = fmt.Sprintf("%v", v) }]. *)
Definition format_entries (q : gmap string value) (payload : RequestPayload)
  : RequestPayload :=
  map_fold (λ k v payload, assign_query payload k (Sprintf_v v)) payload q.

Definition QueryTx (svc : transactionService) (ctx : Context)
    (req : QueryTxRequest) : M (QueryTxResponse * option error) :=
  let payload :=
    {| httpclient.Context_ := ctx;
       httpclient.Method := http.MethodGet;
       httpclient.Path := "/txs";
       httpclient.Query := Some ∅;      (* make(map[string]string) *)
       httpclient.Body := None |} in
  (match Page req with
   | Some p => n ←' load_int64 p; map_assign (Query req) "page" (VInt64 n)
   | None => ret tt
   end) ;;'
  (match Limit req with
   | Some p => n ←' load_int64 p; map_assign (Query req) "limit" (VInt64 n)
   | None => ret tt
   end) ;;'
  q ←' map_entries (Query req);
  let payload := format_entries q payload in
  r ←' RequestJSON (client svc) TQueryTxResponse payload;
  match r with
  | inr err => ret (QueryTxResponse_zero, errors.Wrap (Some err) "request json")
  | inl body => ret (body, None)
  end.

Definition BroadcastTx (svc : transactionService) (ctx : Context)
    (tx : terraauth.StdTx) (mode : types.BroadcastMode)
  : M (cosmostypes.TxResponse * option error) :=
  let req :=
    {| cosmosauthrest.Tx := tx;
       cosmosauthrest.Mode := types.string_of_mode mode |} in
  match MarshalJSON (codec svc) (OfBroadcastReq req) with
  | inr err =>
      ret (cosmostypes.TxResponse_zero,
           errors.Wrap (Some err) "marshal request body")
  | inl rawPayloadBody =>
      let payload :=
        {| httpclient.Context_ := ctx;
           httpclient.Method := http.MethodPost;
           httpclient.Path := "/txs";
           httpclient.Query := None;
           httpclient.Body := Some rawPayloadBody |} in
      r ←' RequestJSON (client svc) TTxResponse payload;
      match r with
      | inr err =>
          ret (cosmostypes.TxResponse_zero,
               errors.Wrap (Some err) "request json")
      | inl body =>
          Sleep (1 * time.Second) ;;'
          if decide (cosmostypes.Code body ≠ abcitypes.CodeTypeOK)
          then ret (body, Some (errors.New (cosmostypes.RawLog body)))
          else ret (body, None)
      end
  end.

Definition EstimateFee (svc : transactionService) (ctx : Context)
    (from : string) (msg : terraauth.StdSignMsg) (gasAdjustment : string)
    (gasPrices : cosmostypes.DecCoins) : M (terraauth.StdFee * option error) :=
  let req :=
    {| ef_BaseReq :=
         {| rest.From_ := from;
            rest.Memo := terraauth.sm_Memo msg;
            rest.ChainID := terraauth.sm_ChainID msg;
            rest.AccountNumber := terraauth.sm_AccountNumber msg;
            rest.Sequence := terraauth.sm_Sequence msg;
            rest.Fees := [];
            rest.GasPrices := gasPrices;
            rest.Gas := "auto";
            rest.GasAdjustment := gasAdjustment;
            rest.Simulate := false |};
       ef_Msgs := terraauth.sm_Msgs msg |} in
  match MarshalJSON (codec svc) (OfEstimateFeeReq req) with
  | inr err =>
      ret (terraauth.StdFee_zero, errors.Wrap (Some err) "marshal request body")
  | inl rawPayloadBody =>
      let payload :=
        {| httpclient.Context_ := ctx;
           httpclient.Method := http.MethodPost;
           httpclient.Path := "/txs/estimate_fee";
           httpclient.Query := None;
           httpclient.Body := Some rawPayloadBody |} in
      r ←' RequestJSON (client svc) TEstimateFeeBody payload;
      match r with
      | inr err =>
          ret (terraauth.StdFee_zero, errors.Wrap (Some err) "request json")
      | inl body => ret (r_Fee (b_Result body), None)
      end
  end.

(** ** Sample codec, client and worlds

    A codec in the manner of amino: a message marshals only when its
    concrete type is registered.  A stub client that answers from a fixed
    table, whatever the request. *)

Module Sample.

Definition dq : string := String (Ascii.ascii_of_nat 34) EmptyString.
Definition quoted (s : string) : string := dq +:+ s +:+ dq.
Definition field (name value : string) : string := quoted name +:+ ":" +:+ value.

Fixpoint render_msgs (msgs : list cosmostypes.Msg) : string :=
  match msgs with
  | [] => EmptyString
  | [m] => cosmostypes.Value m
  | m :: rest => cosmostypes.Value m +:+ "," +:+ render_msgs rest
  end.

Definition render (v : marshalled) : string :=
  match v with
  | OfBroadcastReq req =>
      "{" +:+ field "tx"
               ("{" +:+ field "msg" ("[" +:+ render_msgs (terraauth.Msgs (cosmosauthrest.Tx req)) +:+ "]")
                +:+ "," +:+ field "memo" (quoted (terraauth.Memo (cosmosauthrest.Tx req))) +:+ "}")
      +:+ "," +:+ field "mode" (quoted (cosmosauthrest.Mode req)) +:+ "}"
  | OfEstimateFeeReq req =>
      let b := ef_BaseReq req in
      "{" +:+ field "base_req"
               ("{" +:+ field "from" (quoted (rest.From_ b))
                +:+ "," +:+ field "memo" (quoted (rest.Memo b))
                +:+ "," +:+ field "chain_id" (quoted (rest.ChainID b))
                +:+ "," +:+ field "account_number" (quoted (pretty (rest.AccountNumber b)))
                +:+ "," +:+ field "sequence" (quoted (pretty (rest.Sequence b)))
                +:+ "," +:+ field "gas" (quoted (rest.Gas b))
                +:+ "," +:+ field "gas_adjustment" (quoted (rest.GasAdjustment b))
                +:+ "," +:+ field "simulate" (if rest.Simulate b then "true" else "false")
                +:+ "}")
      +:+ "," +:+ field "msgs" ("[" +:+ render_msgs (ef_Msgs req) +:+ "]") +:+ "}"
  end.

Definition msgs_of (v : marshalled) : list cosmostypes.Msg :=
  match v with
  | OfBroadcastReq req => terraauth.Msgs (cosmosauthrest.Tx req)
  | OfEstimateFeeReq req => ef_Msgs req
  end.

(** Marshalling fails on the first message whose type is not registered. *)
Definition amino (registry : list string) : Codec :=
  {| MarshalJSON v :=
       match List.find (λ m, negb (bool_decide (cosmostypes.Type_ m ∈ registry)))
               (msgs_of v) with
       | Some m =>
           inr (errors.New ("unregistered concrete type " +:+ cosmostypes.Type_ m))
       | None => inl (String.list_byte_of_string (render v))
       end |}.

Definition stub (cdc : Codec) (tx : result cosmostypes.TxResponse)
    (query : result QueryTxResponse) (fee : result EstimateFeeBody) : Client :=
  {| client_Codec := cdc;
     respond t _ _ :=
       match t return result (decoded t) with
       | TTxResponse => tx
       | TQueryTxResponse => query
       | TEstimateFeeBody => fee
       end |}.

Definition cdc : Codec := amino ["bank/MsgSend"].

Definition send : cosmostypes.Msg :=
  {| cosmostypes.Route := "bank"; cosmostypes.Type_ := "bank/MsgSend";
     cosmostypes.Value := "{}" |}.
Definition swap : cosmostypes.Msg :=
  {| cosmostypes.Route := "market"; cosmostypes.Type_ := "market/MsgSwap";
     cosmostypes.Value := "{}" |}.

Definition tx_ok : cosmostypes.TxResponse :=
  {| cosmostypes.Height := 42; cosmostypes.TxHash := "AB12";
     cosmostypes.Code := 0; cosmostypes.Data := EmptyString;
     cosmostypes.RawLog := "[]"; cosmostypes.Info := EmptyString;
     cosmostypes.GasWanted := 200000; cosmostypes.GasUsed := 61234;
     cosmostypes.Timestamp := "2020-05-01T00:00:00Z" |}.

Definition tx_rejected : cosmostypes.TxResponse :=
  {| cosmostypes.Height := 0; cosmostypes.TxHash := "CD34";
     cosmostypes.Code := 5; cosmostypes.Data := EmptyString;
     cosmostypes.RawLog := "insufficient funds"; cosmostypes.Info := EmptyString;
     cosmostypes.GasWanted := 0; cosmostypes.GasUsed := 0;
     cosmostypes.Timestamp := EmptyString |}.

Definition page_one : QueryTxResponse :=
  {| TotalCount := Some 1; Count := Some 1; PageNumber := Some 1;
     PageTotal := Some 1; qr_Limit := Some 30; Txs := [tx_ok] |}.

Definition fee : terraauth.StdFee :=
  {| terraauth.Amount := [ {| cosmostypes.Denom := "uluna"; cosmostypes.Amount := 3000 |} ];
     terraauth.Gas := 200000 |}.

Definition fee_body : EstimateFeeBody :=
  {| b_Height := "100"; b_Result := {| r_Fee := fee |} |}.

Definition timeout : error := errors.New "context deadline exceeded".

(** A node that accepts everything. *)
Definition up : transactionService :=
  NewTransactionService (stub cdc (inl tx_ok) (inl page_one) (inl fee_body)).
(** A node that rejects the broadcast transaction. *)
Definition rejecting : transactionService :=
  NewTransactionService (stub cdc (inl tx_rejected) (inl page_one) (inl fee_body)).
(** A node that cannot be reached. *)
Definition down : transactionService :=
  NewTransactionService (stub cdc (inr timeout) (inr timeout) (inr timeout)).

Definition ctx : Context := Ctx 0.

Definition block : types.BroadcastMode := {| types.mode_name := "block" |}.

Definition tx_send : terraauth.StdTx :=
  {| terraauth.Msgs := [send]; terraauth.Fee := fee;
     terraauth.Signatures := []; terraauth.Memo := "hi" |}.
Definition tx_swap : terraauth.StdTx :=
  {| terraauth.Msgs := [swap]; terraauth.Fee := fee;
     terraauth.Signatures := []; terraauth.Memo := "hi" |}.

Definition sign_send : terraauth.StdSignMsg :=
  {| terraauth.sm_ChainID := "columbus-3"; terraauth.sm_AccountNumber := 7;
     terraauth.sm_Sequence := 3; terraauth.sm_Fee := fee;
     terraauth.sm_Msgs := [send]; terraauth.sm_Memo := "hi" |}.
Definition sign_swap : terraauth.StdSignMsg :=
  {| terraauth.sm_ChainID := "columbus-3"; terraauth.sm_AccountNumber := 7;
     terraauth.sm_Sequence := 3; terraauth.sm_Fee := fee;
     terraauth.sm_Msgs := [swap]; terraauth.sm_Memo := "hi" |}.

Definition prices : cosmostypes.DecCoins :=
  [ {| cosmostypes.DecDenom := "uluna"; cosmostypes.DecAmount := 15000000000000000 |} ].

(** A store with two [int64] cells (2 and 30) and one filter object. *)
Definition filter : gmap string value :=
  {[ "tx.height" := VInt64 5; "message.action" := VString "send" ]}.

Definition world : World :=
  {| ints := {[ 1%positive := 2; 2%positive := 30 ]};
     maps := {[ 10%positive := filter ]};
     trace := [] |}.

(** Page 2, 30 per page, on the filter object. *)
Definition paged : QueryTxRequest :=
  {| Page := Some 1%positive; Limit := Some 2%positive; Query := Some 10%positive |}.
(** Page 2 on a request whose filter was never made. *)
Definition paged_nil : QueryTxRequest :=
  {| Page := Some 1%positive; Limit := None; Query := None |}.
(** No paging, no filter. *)
Definition bare : QueryTxRequest :=
  {| Page := None; Limit := None; Query := None |}.

End Sample.

(** * Vocabulary of the statements *)

(** The world after the events [evs]: the store is what it was. *)
Definition after (w : World) (evs : list Event) : World :=
  {| ints := ints w; maps := maps w; trace := trace w ++ evs |}.

(** The request that [GetTxByHash] is expected to issue. *)
Definition GetTxByHash_payload (ctx : Context) (txHash : string) : RequestPayload :=
  {| httpclient.Context_ := ctx;
     httpclient.Method := http.MethodGet;
     httpclient.Path := "/txs/" +:+ txHash;
     httpclient.Query := None;
     httpclient.Body := None |}.

(** The value that [BroadcastTx] is expected to marshal. *)
Definition BroadcastTx_req (tx : terraauth.StdTx) (mode : types.BroadcastMode)
  : cosmosauthrest.BroadcastReq :=
  {| cosmosauthrest.Tx := tx; cosmosauthrest.Mode := types.mode_name mode |}.

(** A POST of the marshalled bytes [raw] to [path]. *)
Definition post_payload (ctx : Context) (path : string) (raw : list byte)
  : RequestPayload :=
  {| httpclient.Context_ := ctx;
     httpclient.Method := http.MethodPost;
     httpclient.Path := path;
     httpclient.Query := None;
     httpclient.Body := Some raw |}.

(** The result-code check of [BroadcastTx], on its own. *)
Definition check_code (body : cosmostypes.TxResponse)
  : cosmostypes.TxResponse * option error :=
  if decide (cosmostypes.Code body = 0)
  then (body, None)
  else (body, Some (errors.fundamental (cosmostypes.RawLog body))).

(** Among the events of a run, the requests. *)
Definition requests (evs : list Event) : list RequestPayload :=
  omap (λ ev, match ev with EvRequest p => Some p | EvSleep _ => None end) evs.

(** The value that [EstimateFee] is expected to marshal. *)
Definition EstimateFee_req (from : string) (msg : terraauth.StdSignMsg)
    (gasAdjustment : string) (gasPrices : cosmostypes.DecCoins) : EstimateFeeReq :=
  {| ef_BaseReq :=
       {| rest.From_ := from;
          rest.Memo := terraauth.sm_Memo msg;
          rest.ChainID := terraauth.sm_ChainID msg;
          rest.AccountNumber := terraauth.sm_AccountNumber msg;
          rest.Sequence := terraauth.sm_Sequence msg;
          rest.Fees := [];
          rest.GasPrices := gasPrices;
          rest.Gas := "auto";
          rest.GasAdjustment := gasAdjustment;
          rest.Simulate := false |};
     ef_Msgs := terraauth.sm_Msgs msg |}.

(** [p] is nil and [n] is [None], or [p] points to the [int64] [n]. *)
Definition int_at (w : World) (p : option loc) (n : option Z) : Prop :=
  match p, n with
  | None, None => True
  | Some l, Some n => ints w !! l = Some n
  | _, _ => False
  end.

(** A pointer or a map of a Go program is nil or refers to the store. *)
Definition valid_ref {A} (store : gmap loc A) (p : option loc) : Prop :=
  match p with
  | None => True
  | Some l => is_Some (store !! l)
  end.

(** Every reference held by the request refers to the store. *)
Definition valid_request (w : World) (req : QueryTxRequest) : Prop :=
  valid_ref (ints w) (Page req) ∧ valid_ref (ints w) (Limit req)
  ∧ valid_ref (maps w) (Query req).

(** [q[key] = n] when the pointer was not nil, [q] untouched otherwise. *)
Definition with_key (key : string) (n : option Z) (q : gmap string value)
  : gmap string value :=
  match n with
  | Some n => <[key := VInt64 n]> q
  | None => q
  end.

(** A GET of ["/txs"] with the query parameters [query]. *)
Definition QueryTx_payload (ctx : Context) (query : gmap string string)
  : RequestPayload :=
  {| httpclient.Context_ := ctx;
     httpclient.Method := http.MethodGet;
     httpclient.Path := "/txs";
     httpclient.Query := Some query;
     httpclient.Body := None |}.

(** What [QueryTx] returns once the client has answered. *)
Definition QueryTx_result (r : result QueryTxResponse)
  : QueryTxResponse * option error :=
  match r with
  | inl body => (body, None)
  | inr err => (QueryTxResponse_zero, Some (errors.withMessage err "request json"))
  end.

(** Reads of the store: by a fact at hand, or of the entry just written. *)
Ltac run_store :=
  simpl;
  repeat (first [ rewrite lookup_insert_eq
                | match goal with H : _ !! _ = _ |- _ => rewrite H end ];
          simpl).

(** The entries of a filter: none for the nil map, the object otherwise. *)
Definition filter_at (w : World) (m : option loc) (q : gmap string value) : Prop :=
  match m with
  | None => q = ∅
  | Some l => maps w !! l = Some q
  end.

(** [m] has called the client with [payload] and the call has failed with
    [err]: then nothing follows the request, and [m] returns the zero value
    next to [err] wrapped with ["request json"]. *)
Definition wraps_client_failure {A} (zero : A) (t : target) (c : Client)
    (m : M (A * option error)) : Prop :=
  ∀ w payload evs err,
    trace (m w).2 = trace w ++ EvRequest payload :: evs →
    respond c t (trace w) payload = inr err →
    evs = []
    ∧ (m w).1 = Returned (zero, errors.Wrap (Some err) "request json").

(** The events that a run added to the trace of [w]. *)
Definition new_events (w w' : World) : list Event :=
  drop (length (trace w)) (trace w').

(** Among the events of a run, the pauses. *)
Definition sleeps (evs : list Event) : list time.Duration :=
  omap (λ ev, match ev with EvSleep d => Some d | EvRequest _ => None end) evs.

(** A run of [m] keeps the trace it found and adds at most one request. *)
Definition at_most_one_request {A} (m : M A) : Prop :=
  ∀ w, trace (m w).2 = trace w ++ new_events w (m w).2
       ∧ (length (requests (new_events w (m w).2)) ≤ 1)%nat.

(** A run of [m] leaves both stores as they were. *)
Definition keeps_store {A} (m : M A) : Prop :=
  ∀ w, ints (m w).2 = ints w ∧ maps (m w).2 = maps w.

(** Whenever [m] returns a non-nil error, the value beside it is [zero]. *)
Definition error_means_zero {A} (zero : A) (m : M (A * option error)) : Prop :=
  ∀ w r err, (m w).1 = Returned (r, Some err) → r = zero.

(** The loop of [QueryTx] over the entries of the filter, visited in the
    order of the list [entries]: Go leaves the order of [range] over a map
    open. *)
Definition format_in_order (entries : list (string * value))
    (payload : RequestPayload) : RequestPayload :=
  foldl (λ payload kv, assign_query payload kv.1 (Sprintf_v kv.2)) payload entries.

(** A store whose one filter already holds an entry ["page"]. *)
Definition world_with_page_entry : World :=
  {| ints := {[ 1%positive := 2; 2%positive := 30 ]};
     maps := {[ 10%positive := {[ "page" := VString "last" ]} ]};
     trace := [] |}.

(** A store with two filter objects: the one of [Sample.world], and one
    that belongs to another request. *)
Definition world_two_filters : World :=
  {| ints := {[ 1%positive := 2; 2%positive := 30 ]};
     maps := {[ 10%positive := Sample.filter;
                11%positive := {[ "tx.height" := VInt64 9 ]} ]};
     trace := [] |}.

(** * Properties *)

Lemma trace_extends_inv (t : list Event) e rest : t ≠ t ++ e :: rest.
Proof.
  intros H. apply (f_equal length) in H.
  rewrite length_app in H. simpl in H. lia.
Qed.

Lemma trace_first_inv (t : list Event) e1 r1 e2 r2 :
  t ++ e1 :: r1 = t ++ e2 :: r2 → e1 = e2 ∧ r1 = r2.
Proof. intros H. apply app_inv_head in H. by inversion H. Qed.

(** The formatting loop does not depend on the order in which [range]
    visits the entries: started on the empty map, it leaves every value of
    the filter, formatted, under its own key. *)
Lemma format_entries_fmap ctx (q : gmap string value) :
  format_entries q (QueryTx_payload ctx ∅) = QueryTx_payload ctx (Sprintf_v <$> q).
Proof.
  unfold format_entries.
  apply (map_fold_weak_ind (λ r m, r = QueryTx_payload ctx (Sprintf_v <$> m))).
  - by rewrite fmap_empty.
  - intros k v m r _ ->. unfold assign_query, QueryTx_payload. simpl.
    by rewrite fmap_insert.
Qed.

(** ** GetTxByHash *)

Lemma GetTxByHash_run svc ctx txHash w :
  GetTxByHash svc ctx txHash w =
    (Returned
       match respond (client svc) TTxResponse (trace w)
               (GetTxByHash_payload ctx txHash) with
       | inl body => (body, None)
       | inr err =>
           (cosmostypes.TxResponse_zero,
            Some (errors.withMessage err "request json"))
       end,
     after w [EvRequest (GetTxByHash_payload ctx txHash)]).
Proof.
  unfold GetTxByHash, bind, RequestJSON, GetTxByHash_payload, Sprintf_txs, after.
  simpl. by destruct (respond _ _ _ _).
Qed.

(** C2. For every hash, [GetTxByHash] issues one request, a GET whose path
    is ["/txs/"] followed by the hash (no query, no body, the caller's
    context), and when the client succeeds it returns the decoded
    [TxResponse] as it is, with a nil error. *)
Theorem GetTxByHash_gets_txs_hash svc ctx txHash w :
  let payload :=
    {| httpclient.Context_ := ctx;
       httpclient.Method := http.MethodGet;
       httpclient.Path := "/txs/" +:+ txHash;
       httpclient.Query := None;
       httpclient.Body := None |} in
  (GetTxByHash svc ctx txHash w).2 = after w [EvRequest payload]
  ∧ ∀ body, respond (client svc) TTxResponse (trace w) payload = inl body →
            (GetTxByHash svc ctx txHash w).1 = Returned (body, None).
Proof.
  intros payload. rewrite GetTxByHash_run.
  change (GetTxByHash_payload ctx txHash) with payload.
  split; [done|].
  intros body Hbody. cbn [fst]. by rewrite Hbody.
Qed.

Lemma GetTxByHash_gets_txs_hash_witness :
  (GetTxByHash Sample.up Sample.ctx "AB12" Sample.world).2
  = after Sample.world [EvRequest (GetTxByHash_payload Sample.ctx "AB12")]
  ∧ (GetTxByHash Sample.up Sample.ctx "AB12" Sample.world).1
    = Returned (Sample.tx_ok, None).
Proof.
  pose proof (GetTxByHash_gets_txs_hash Sample.up Sample.ctx "AB12" Sample.world)
    as (Hw & Hbody).
  split; [exact Hw | apply Hbody; reflexivity].
Defined.

(** ** BroadcastTx *)

Lemma BroadcastTx_run svc ctx tx mode w :
  BroadcastTx svc ctx tx mode w =
    match MarshalJSON (codec svc) (OfBroadcastReq (BroadcastTx_req tx mode)) with
    | inr err =>
        (Returned (cosmostypes.TxResponse_zero,
                   Some (errors.withMessage err "marshal request body")), w)
    | inl raw =>
        match respond (client svc) TTxResponse (trace w)
                (post_payload ctx "/txs" raw) with
        | inr err =>
            (Returned (cosmostypes.TxResponse_zero,
                       Some (errors.withMessage err "request json")),
             after w [EvRequest (post_payload ctx "/txs" raw)])
        | inl body =>
            (Returned (check_code body),
             after w [EvRequest (post_payload ctx "/txs" raw);
                      EvSleep 1000000000])
        end
    end.
Proof.
  unfold BroadcastTx, BroadcastTx_req, types.string_of_mode.
  destruct (MarshalJSON _ _) as [raw|err]; [|done].
  unfold bind, RequestJSON, post_payload, after, check_code,
    abcitypes.CodeTypeOK. simpl.
  destruct (respond _ _ _ _) as [body|err]; [|done].
  unfold Sleep, ret. simpl. rewrite <- app_assoc. simpl.
  destruct (decide (cosmostypes.Code body ≠ 0)), (decide (cosmostypes.Code body = 0));
    try done; lia.
Qed.

(** C1. The one status check of [BroadcastTx]: whatever response the client
    decoded, a code other than [CodeTypeOK] (zero) gives an error whose
    message is the raw log of the response, and the code [CodeTypeOK] gives
    the nil error. *)
Theorem BroadcastTx_status_check svc ctx tx mode w raw body :
  MarshalJSON (codec svc) (OfBroadcastReq (BroadcastTx_req tx mode)) = inl raw →
  respond (client svc) TTxResponse (trace w) (post_payload ctx "/txs" raw)
    = inl body →
  (cosmostypes.Code body ≠ abcitypes.CodeTypeOK →
   ∃ err, (BroadcastTx svc ctx tx mode w).1 = Returned (body, Some err)
          ∧ errors.Error err = cosmostypes.RawLog body)
  ∧ (cosmostypes.Code body = abcitypes.CodeTypeOK →
     (BroadcastTx svc ctx tx mode w).1 = Returned (body, None)).
Proof.
  intros Hraw Hbody. rewrite BroadcastTx_run, Hraw, Hbody.
  unfold abcitypes.CodeTypeOK, check_code. simpl.
  split; intros Hcode; destruct (decide _); try done.
  by eexists.
Qed.

Lemma BroadcastTx_status_check_witness :
  (∃ err,
     (BroadcastTx Sample.rejecting Sample.ctx Sample.tx_send Sample.block
        Sample.world).1 = Returned (Sample.tx_rejected, Some err)
     ∧ errors.Error err = "insufficient funds")
  ∧ (BroadcastTx Sample.up Sample.ctx Sample.tx_send Sample.block
       Sample.world).1 = Returned (Sample.tx_ok, None).
Proof.
  split.
  - eapply (BroadcastTx_status_check Sample.rejecting Sample.ctx Sample.tx_send
              Sample.block Sample.world);
      [reflexivity | reflexivity | vm_compute; discriminate].
  - eapply (BroadcastTx_status_check Sample.up Sample.ctx Sample.tx_send
              Sample.block Sample.world); reflexivity.
Defined.

(** C7. When the broadcast request succeeds, [BroadcastTx] sleeps once, for
    [1 * time.Second] (10^9 nanoseconds): the pause follows the request, it
    is the last event, and it is there whatever the code of the response;
    what is returned is the outcome of the check on that response. *)
Theorem BroadcastTx_pauses_after_request svc ctx tx mode w raw body :
  MarshalJSON (codec svc) (OfBroadcastReq (BroadcastTx_req tx mode)) = inl raw →
  respond (client svc) TTxResponse (trace w) (post_payload ctx "/txs" raw)
    = inl body →
  trace (BroadcastTx svc ctx tx mode w).2
    = trace w ++ [EvRequest (post_payload ctx "/txs" raw);
                  EvSleep (1 * time.Second)]
  ∧ 1 * time.Second = 1000000000
  ∧ (BroadcastTx svc ctx tx mode w).1 = Returned (check_code body).
Proof.
  intros Hraw Hbody. by rewrite BroadcastTx_run, Hraw, Hbody.
Qed.

Lemma BroadcastTx_pauses_after_request_witness :
  trace (BroadcastTx Sample.rejecting Sample.ctx Sample.tx_send Sample.block
           Sample.world).2
  = [EvRequest
       (post_payload Sample.ctx "/txs"
          (String.list_byte_of_string
             (Sample.render (OfBroadcastReq (BroadcastTx_req Sample.tx_send Sample.block)))));
     EvSleep 1000000000]
  ∧ (BroadcastTx Sample.rejecting Sample.ctx Sample.tx_send Sample.block
       Sample.world).1
    = Returned (Sample.tx_rejected,
                Some (errors.New "insufficient funds")).
Proof.
  pose proof (BroadcastTx_pauses_after_request Sample.rejecting Sample.ctx
                Sample.tx_send Sample.block Sample.world _ Sample.tx_rejected
                eq_refl eq_refl) as (Htrace & _ & Hres).
  split; [exact Htrace | exact Hres].
Defined.

(** C10. What a caller of [BroadcastTx] gets next to a non-nil error: the
    decoded body when the result-code check failed, the zero [TxResponse]
    when marshalling or the request failed.  The body of a failed check is
    never the zero value (its code is not zero), so with a non-nil error the
    returned body differs from zero exactly when the node rejected the
    transaction. *)
Theorem BroadcastTx_error_with_body svc ctx tx mode w :
  let marshal := MarshalJSON (codec svc) (OfBroadcastReq (BroadcastTx_req tx mode)) in
  let answer raw :=
    respond (client svc) TTxResponse (trace w) (post_payload ctx "/txs" raw) in
  let rejected b e :=
    ∃ raw, marshal = inl raw ∧ answer raw = inl b
           ∧ cosmostypes.Code b ≠ abcitypes.CodeTypeOK
           ∧ e = errors.New (cosmostypes.RawLog b) in
  (∀ raw body, marshal = inl raw → answer raw = inl body →
     cosmostypes.Code body ≠ abcitypes.CodeTypeOK →
     (BroadcastTx svc ctx tx mode w).1
       = Returned (body, Some (errors.New (cosmostypes.RawLog body)))
     ∧ body ≠ cosmostypes.TxResponse_zero)
  ∧ (∀ err, marshal = inr err →
       (BroadcastTx svc ctx tx mode w).1
         = Returned (cosmostypes.TxResponse_zero,
                     Some (errors.withMessage err "marshal request body")))
  ∧ (∀ raw err, marshal = inl raw → answer raw = inr err →
       (BroadcastTx svc ctx tx mode w).1
         = Returned (cosmostypes.TxResponse_zero,
                     Some (errors.withMessage err "request json")))
  ∧ (∀ b e, (BroadcastTx svc ctx tx mode w).1 = Returned (b, Some e) →
       (b ≠ cosmostypes.TxResponse_zero ↔ rejected b e)).
Proof.
  intros marshal answer rejected. subst rejected.
  rewrite BroadcastTx_run. fold marshal.
  unfold abcitypes.CodeTypeOK, errors.New.
  split; [|split; [|split]].
  - intros raw body -> Hbody Hcode. unfold answer in Hbody. rewrite Hbody.
    cbn [fst]. unfold check_code. destruct (decide _); [done|].
    split; [done|]. intros ->. by simpl in Hcode.
  - by intros err ->.
  - intros raw err -> Herr. unfold answer in Herr. by rewrite Herr.
  - intros b e Hrun. split.
    + intros Hnz. destruct marshal as [raw|err] eqn:Hm; cbn [fst] in Hrun.
      * exists raw. unfold answer.
        destruct (respond _ _ _ _) as [body|err] eqn:Hr; cbn [fst] in Hrun.
        -- unfold check_code in Hrun. destruct (decide _); simplify_eq.
           by repeat split.
        -- by simplify_eq.
      * by simplify_eq.
    + intros (raw & _ & _ & Hcode & _) ->. by simpl in Hcode.
Qed.

Lemma BroadcastTx_error_with_body_witness :
  ((BroadcastTx Sample.rejecting Sample.ctx Sample.tx_send Sample.block
      Sample.world).1
   = Returned (Sample.tx_rejected, Some (errors.New "insufficient funds"))
   ∧ Sample.tx_rejected ≠ cosmostypes.TxResponse_zero)
  ∧ (BroadcastTx Sample.up Sample.ctx Sample.tx_swap Sample.block
       Sample.world).1
    = Returned (cosmostypes.TxResponse_zero,
                Some (errors.withMessage
                        (errors.New "unregistered concrete type market/MsgSwap")
                        "marshal request body"))
  ∧ (BroadcastTx Sample.down Sample.ctx Sample.tx_send Sample.block
       Sample.world).1
    = Returned (cosmostypes.TxResponse_zero,
                Some (errors.withMessage Sample.timeout "request json")).
Proof.
  split; [|split].
  - eapply (BroadcastTx_error_with_body Sample.rejecting Sample.ctx
              Sample.tx_send Sample.block Sample.world);
      [reflexivity | reflexivity | vm_compute; discriminate].
  - eapply (BroadcastTx_error_with_body Sample.up Sample.ctx
              Sample.tx_swap Sample.block Sample.world). reflexivity.
  - eapply (BroadcastTx_error_with_body Sample.down Sample.ctx
              Sample.tx_send Sample.block Sample.world); reflexivity.
Defined.

(** When the codec fails, [BroadcastTx] issues no request: the codec's
    error comes back wrapped with ["marshal request body"], next to the
    zero [TxResponse], and the world is untouched. *)
Lemma BroadcastTx_marshal_failure svc ctx tx mode w err :
  MarshalJSON (codec svc) (OfBroadcastReq (BroadcastTx_req tx mode)) = inr err →
  BroadcastTx svc ctx tx mode w
  = (Returned (cosmostypes.TxResponse_zero,
               Some (errors.withMessage err "marshal request body")), w).
Proof. intros Herr. by rewrite BroadcastTx_run, Herr. Qed.

(** C4, as the code has it.  Whenever the codec marshals the broadcast
    request (the transaction, and the caller's mode converted to a string)
    into [raw], [BroadcastTx] issues exactly one request: a POST to
    ["/txs"] whose body is [raw]. *)
Theorem BroadcastTx_posts_marshalled_request svc ctx tx mode w raw :
  MarshalJSON (codec svc)
    (OfBroadcastReq {| cosmosauthrest.Tx := tx;
                       cosmosauthrest.Mode := types.string_of_mode mode |})
  = inl raw →
  ∃ evs, (BroadcastTx svc ctx tx mode w).2 = after w evs
         ∧ requests evs
           = [ {| httpclient.Context_ := ctx;
                  httpclient.Method := http.MethodPost;
                  httpclient.Path := "/txs";
                  httpclient.Query := None;
                  httpclient.Body := Some raw |} ].
Proof.
  intros Hraw. rewrite BroadcastTx_run.
  change (OfBroadcastReq _) with (OfBroadcastReq (BroadcastTx_req tx mode)) in Hraw.
  rewrite Hraw. fold (post_payload ctx "/txs" raw).
  destruct (respond _ _ _ _); eexists; (split; [reflexivity|done]).
Qed.

Lemma BroadcastTx_posts_marshalled_request_witness :
  ∃ evs,
    (BroadcastTx Sample.up Sample.ctx Sample.tx_send Sample.block Sample.world).2
    = after Sample.world evs
    ∧ requests evs
      = [ post_payload Sample.ctx "/txs"
            (String.list_byte_of_string
               (Sample.render
                  (OfBroadcastReq (BroadcastTx_req Sample.tx_send Sample.block)))) ].
Proof.
  eapply (BroadcastTx_posts_marshalled_request Sample.up Sample.ctx
            Sample.tx_send Sample.block Sample.world).
  reflexivity.
Defined.

(** C4 as written ("for every transaction and broadcast mode") fails: a
    transaction holding a message whose type the codec does not know is not
    marshalled, and [BroadcastTx] returns before any request is built. *)
Lemma BroadcastTx_unmarshalled_sends_nothing :
  MarshalJSON (codec Sample.up)
    (OfBroadcastReq (BroadcastTx_req Sample.tx_swap Sample.block))
  = inr (errors.New "unregistered concrete type market/MsgSwap")
  ∧ trace Sample.world = []
  ∧ trace (BroadcastTx Sample.up Sample.ctx Sample.tx_swap Sample.block
             Sample.world).2 = []
  ∧ ¬ (∀ svc ctx tx mode w, ∃ payload evs,
         trace (BroadcastTx svc ctx tx mode w).2
         = trace w ++ EvRequest payload :: evs
         ∧ httpclient.Method payload = http.MethodPost
         ∧ httpclient.Path payload = "/txs").
Proof.
  split; [reflexivity|]. split; [reflexivity|]. split; [reflexivity|].
  intros H.
  destruct (H Sample.up Sample.ctx Sample.tx_swap Sample.block Sample.world)
    as (payload & evs & Htrace & _).
  vm_compute in Htrace. discriminate.
Qed.

(** ** EstimateFee *)

Lemma EstimateFee_run svc ctx from msg gasAdjustment gasPrices w :
  EstimateFee svc ctx from msg gasAdjustment gasPrices w =
    match MarshalJSON (codec svc)
            (OfEstimateFeeReq (EstimateFee_req from msg gasAdjustment gasPrices)) with
    | inr err =>
        (Returned (terraauth.StdFee_zero,
                   Some (errors.withMessage err "marshal request body")), w)
    | inl raw =>
        (Returned
           match respond (client svc) TEstimateFeeBody (trace w)
                   (post_payload ctx "/txs/estimate_fee" raw) with
           | inr err =>
               (terraauth.StdFee_zero,
                Some (errors.withMessage err "request json"))
           | inl body => (r_Fee (b_Result body), None)
           end,
         after w [EvRequest (post_payload ctx "/txs/estimate_fee" raw)])
    end.
Proof.
  unfold EstimateFee, EstimateFee_req.
  destruct (MarshalJSON _ _) as [raw|err]; [|done].
  unfold bind, RequestJSON, post_payload, after. simpl.
  by destruct (respond _ _ _ _).
Qed.

(** When the codec fails, [EstimateFee] issues no request: the codec's
    error comes back wrapped with ["marshal request body"], next to the
    zero fee, and the world is untouched. *)
Lemma EstimateFee_marshal_failure svc ctx from msg gasAdjustment gasPrices w err :
  MarshalJSON (codec svc)
    (OfEstimateFeeReq (EstimateFee_req from msg gasAdjustment gasPrices))
  = inr err →
  EstimateFee svc ctx from msg gasAdjustment gasPrices w
  = (Returned (terraauth.StdFee_zero,
               Some (errors.withMessage err "marshal request body")), w).
Proof. intros Herr. by rewrite EstimateFee_run, Herr. Qed.

(** C5, as the code has it.  The request that [EstimateFee] marshals holds
    a base request with the caller's from-address, the memo, chain id,
    account number and sequence of the sign message, the given gas prices
    and gas adjustment, gas ["auto"] and simulate [false] (and no fees),
    next to the messages of the sign message.  Whenever the codec marshals
    it into [raw], [EstimateFee] issues exactly one request, a POST to
    ["/txs/estimate_fee"] with body [raw], and when the client succeeds it
    returns the fee under the result of the decoded body, with a nil
    error. *)
Theorem EstimateFee_posts_marshalled_request
    svc ctx from msg gasAdjustment gasPrices w raw :
  let req :=
    {| ef_BaseReq :=
         {| rest.From_ := from;
            rest.Memo := terraauth.sm_Memo msg;
            rest.ChainID := terraauth.sm_ChainID msg;
            rest.AccountNumber := terraauth.sm_AccountNumber msg;
            rest.Sequence := terraauth.sm_Sequence msg;
            rest.Fees := [];
            rest.GasPrices := gasPrices;
            rest.Gas := "auto";
            rest.GasAdjustment := gasAdjustment;
            rest.Simulate := false |};
       ef_Msgs := terraauth.sm_Msgs msg |} in
  let payload :=
    {| httpclient.Context_ := ctx;
       httpclient.Method := http.MethodPost;
       httpclient.Path := "/txs/estimate_fee";
       httpclient.Query := None;
       httpclient.Body := Some raw |} in
  let run := EstimateFee svc ctx from msg gasAdjustment gasPrices w in
  MarshalJSON (codec svc) (OfEstimateFeeReq req) = inl raw →
  run.2 = after w [EvRequest payload]
  ∧ ∀ body, respond (client svc) TEstimateFeeBody (trace w) payload = inl body →
            run.1 = Returned (r_Fee (b_Result body), None).
Proof.
  intros req payload run Hraw. subst run. rewrite EstimateFee_run.
  change (EstimateFee_req from msg gasAdjustment gasPrices) with req.
  rewrite Hraw. split; [done|].
  intros body Hbody. change (post_payload ctx "/txs/estimate_fee" raw) with payload.
  cbn [fst]. by rewrite Hbody.
Qed.

Lemma EstimateFee_posts_marshalled_request_witness :
  (EstimateFee Sample.up Sample.ctx "terra1from" Sample.sign_send "1.4"
     Sample.prices Sample.world).2
  = after Sample.world
      [EvRequest
         (post_payload Sample.ctx "/txs/estimate_fee"
            (String.list_byte_of_string
               (Sample.render
                  (OfEstimateFeeReq
                     (EstimateFee_req "terra1from" Sample.sign_send "1.4"
                        Sample.prices)))))]
  ∧ (EstimateFee Sample.up Sample.ctx "terra1from" Sample.sign_send "1.4"
       Sample.prices Sample.world).1 = Returned (Sample.fee, None).
Proof.
  destruct (EstimateFee_posts_marshalled_request Sample.up Sample.ctx
              "terra1from" Sample.sign_send "1.4" Sample.prices Sample.world
              _ eq_refl) as [Hw Hfee].
  split; [exact Hw | exact (Hfee Sample.fee_body eq_refl)].
Defined.

(** C5 as written ("for every input") fails in the same way as C4: a sign
    message that the codec cannot marshal makes [EstimateFee] return before
    any request is built. *)
Lemma EstimateFee_unmarshalled_sends_nothing :
  MarshalJSON (codec Sample.up)
    (OfEstimateFeeReq
       (EstimateFee_req "terra1from" Sample.sign_swap "1.4" Sample.prices))
  = inr (errors.New "unregistered concrete type market/MsgSwap")
  ∧ trace Sample.world = []
  ∧ trace (EstimateFee Sample.up Sample.ctx "terra1from" Sample.sign_swap "1.4"
             Sample.prices Sample.world).2 = []
  ∧ ¬ (∀ svc ctx from msg gasAdjustment gasPrices w, ∃ payload evs,
         trace (EstimateFee svc ctx from msg gasAdjustment gasPrices w).2
         = trace w ++ EvRequest payload :: evs
         ∧ httpclient.Method payload = http.MethodPost
         ∧ httpclient.Path payload = "/txs/estimate_fee").
Proof.
  split; [reflexivity|]. split; [reflexivity|]. split; [reflexivity|].
  intros H.
  destruct (H Sample.up Sample.ctx "terra1from" Sample.sign_swap "1.4"
              Sample.prices Sample.world)
    as (payload & evs & Htrace & _).
  vm_compute in Htrace. discriminate.
Qed.

(** ** QueryTx *)

Lemma valid_ref_int_at w p : valid_ref (ints w) p → ∃ n, int_at w p n.
Proof.
  destruct p as [l|]; simpl.
  - intros [n Hn]. by exists (Some n).
  - by exists None.
Qed.

Lemma QueryTx_return (r : result QueryTxResponse) (w : World) :
  match r with
  | inr err =>
      λ w', (Returned (QueryTxResponse_zero,
                       Some (errors.withMessage err "request json")), w')
  | inl body => λ w', (Returned (body, None), w')
  end w = (Returned (QueryTx_result r), w).
Proof. by destruct r. Qed.

(** A run on a filter that was made: the map object is updated in place and
    its entries, formatted, are the query of the one request. *)
Lemma QueryTx_run_map svc ctx req w l q pv lv :
  Query req = Some l → maps w !! l = Some q →
  int_at w (Page req) pv → int_at w (Limit req) lv →
  let q' := with_key "limit" lv (with_key "page" pv q) in
  let payload := QueryTx_payload ctx (Sprintf_v <$> q') in
  QueryTx svc ctx req w =
    (Returned
       (QueryTx_result (respond (client svc) TQueryTxResponse (trace w) payload)),
     {| ints := ints w; maps := <[l := q']> (maps w);
        trace := trace w ++ [EvRequest payload] |}).
Proof.
  destruct req as [page limit query]. simpl. intros -> Hq Hp Hl.
  unfold QueryTx, bind, load_int64, map_assign, map_entries, RequestJSON,
    QueryTx_payload, QueryTx_result, ret. simpl.
  destruct page as [p|], pv as [pn|]; simpl in Hp; try done;
    destruct limit as [p'|], lv as [ln|]; simpl in Hl; try done; simpl;
    rewrite ?Hp, ?Hq; simpl; rewrite ?Hl; simpl;
    rewrite ?lookup_insert_eq, ?Hq; simpl;
    rewrite ?lookup_insert_eq, ?insert_insert_eq,
      (format_entries_fmap ctx);
    try (by destruct (respond _ _ _ _)).
  rewrite (insert_id (maps w) l q Hq). by destruct (respond _ _ _ _).
Qed.

(** A run on the nil filter: a panic at the first assignment, or, when
    there is nothing to assign, a request with an empty query. *)
Lemma QueryTx_run_nil svc ctx req w pv lv :
  Query req = None →
  int_at w (Page req) pv → int_at w (Limit req) lv →
  QueryTx svc ctx req w =
    match pv, lv with
    | None, None =>
        (Returned
           (QueryTx_result
              (respond (client svc) TQueryTxResponse (trace w)
                 (QueryTx_payload ctx ∅))),
         after w [EvRequest (QueryTx_payload ctx ∅)])
    | _, _ => (Panicked nil_map_panic, w)
    end.
Proof.
  destruct req as [page limit query]. simpl. intros -> Hp Hl.
  unfold QueryTx, bind, load_int64, map_assign, map_entries, RequestJSON,
    QueryTx_payload, QueryTx_result, ret, after. simpl.
  destruct page as [p|], pv as [pn|]; simpl in Hp; try done;
    destruct limit as [p'|], lv as [ln|]; simpl in Hl; try done; simpl;
    rewrite ?Hp; simpl; rewrite ?Hl; simpl; try done.
  unfold format_entries. rewrite map_fold_empty.
  by destruct (respond _ _ _ _).
Qed.

(** Whatever the request and the store, [QueryTx] panics with the trace as
    it was, or returns after exactly one request. *)
Lemma QueryTx_outcomes svc ctx req w :
  (∃ msg w', QueryTx svc ctx req w = (Panicked msg, w') ∧ trace w' = trace w)
  ∨ (∃ payload w',
       QueryTx svc ctx req w =
         (Returned
            (QueryTx_result
               (respond (client svc) TQueryTxResponse (trace w) payload)), w')
       ∧ trace w' = trace w ++ [EvRequest payload]).
Proof.
  destruct req as [page limit query].
  unfold QueryTx, bind, load_int64, map_assign, map_entries, RequestJSON.
  destruct page as [p|]; [destruct (ints w !! p) as [pn|] eqn:Hp|];
    (destruct query as [l|]; [destruct (maps w !! l) as [q|] eqn:Hq|]);
    (destruct limit as [p'|]; [destruct (ints w !! p') as [ln|] eqn:Hl|]);
    unfold ret; run_store; eauto 8;
    right; rewrite QueryTx_return; simpl; by eexists _, _.
Qed.

(** X13. For every request whose filter is not nil, or whose [Page] and
    [Limit] are both nil, [QueryTx] issues one request: a GET to ["/txs"]
    whose query holds the entries of the filter, with ["page"] and
    ["limit"] set from the pointers that are not nil (replacing an entry of
    that name), each value formatted with ["%v"].  When the client
    succeeds, the decoded [QueryTxResponse] is returned as it is. *)
Theorem QueryTx_gets_txs_with_filter svc ctx req w q pv lv :
  (Query req = None → Page req = None ∧ Limit req = None) →
  filter_at w (Query req) q →
  int_at w (Page req) pv → int_at w (Limit req) lv →
  let query := Sprintf_v <$> with_key "limit" lv (with_key "page" pv q) in
  let payload :=
    {| httpclient.Context_ := ctx;
       httpclient.Method := http.MethodGet;
       httpclient.Path := "/txs";
       httpclient.Query := Some query;
       httpclient.Body := None |} in
  trace (QueryTx svc ctx req w).2 = trace w ++ [EvRequest payload]
  ∧ ∀ body, respond (client svc) TQueryTxResponse (trace w) payload = inl body →
            (QueryTx svc ctx req w).1 = Returned (body, None).
Proof.
  intros Hnil Hq Hp Hl query payload.
  destruct (Query req) as [l|] eqn:Hquery; simpl in Hq.
  - rewrite (QueryTx_run_map svc ctx req w l q pv lv Hquery Hq Hp Hl).
    split; [done|]. intros body Hbody.
    unfold payload, query in Hbody. unfold QueryTx_payload.
    cbn [fst]. by rewrite Hbody.
  - destruct Hnil as [Hpage Hlimit]; [done|].
    rewrite Hpage in Hp. rewrite Hlimit in Hl.
    destruct pv, lv; simpl in Hp, Hl; try done.
    rewrite (QueryTx_run_nil svc ctx req w None None Hquery);
      [|by rewrite Hpage|by rewrite Hlimit].
    subst q. subst query payload. cbn [with_key]. rewrite fmap_empty.
    split; [done|]. intros body Hbody.
    unfold QueryTx_payload. cbn [fst]. by rewrite Hbody.
Qed.

Lemma QueryTx_gets_txs_with_filter_witness :
  trace (QueryTx Sample.up Sample.ctx Sample.paged Sample.world).2
  = [EvRequest
       (QueryTx_payload Sample.ctx
          {[ "tx.height" := "5"; "message.action" := "send";
             "page" := "2"; "limit" := "30" ]})]
  ∧ (QueryTx Sample.up Sample.ctx Sample.paged Sample.world).1
    = Returned (Sample.page_one, None).
Proof.
  pose proof (QueryTx_gets_txs_with_filter Sample.up Sample.ctx Sample.paged
                Sample.world Sample.filter (Some 2) (Some 30)) as H.
  destruct H as [Htrace Hbody].
  - simpl. discriminate.
  - reflexivity.
  - reflexivity.
  - reflexivity.
  - split.
    + etransitivity; [exact Htrace|]. vm_compute. reflexivity.
    + apply Hbody. reflexivity.
Defined.

(** C3.  The code breaks the claim on a paged request whose filter was
    never made ([QueryTxRequest{Page: &2}], its [Query] the nil map): the
    assignment of the page into the nil map panics, and no request is
    issued.  The neighbouring requests are served as the claim says: the
    same paging on a filter that was made, and the nil filter without
    paging, each lead to the GET of ["/txs"]. *)
Theorem QueryTx_nil_filter_sends_nothing :
  valid_request Sample.world Sample.paged_nil
  ∧ QueryTx Sample.up Sample.ctx Sample.paged_nil Sample.world
    = (Panicked "assignment to entry in nil map", Sample.world)
  ∧ new_events Sample.world
      (QueryTx Sample.up Sample.ctx Sample.paged_nil Sample.world).2 = []
  ∧ new_events Sample.world
      (QueryTx Sample.up Sample.ctx Sample.paged Sample.world).2
    = [EvRequest
         (QueryTx_payload Sample.ctx
            {[ "tx.height" := "5"; "message.action" := "send";
               "page" := "2"; "limit" := "30" ]})]
  ∧ new_events Sample.world
      (QueryTx Sample.up Sample.ctx Sample.bare Sample.world).2
    = [EvRequest (QueryTx_payload Sample.ctx ∅)]
  ∧ ¬ (∀ svc ctx req w, valid_request w req →
         ∃ payload evs,
           trace (QueryTx svc ctx req w).2 = trace w ++ EvRequest payload :: evs
           ∧ httpclient.Method payload = http.MethodGet
           ∧ httpclient.Path payload = "/txs").
Proof.
  assert (valid_request Sample.world Sample.paged_nil) as Hvalid.
  { repeat split. simpl. by exists 2. }
  split; [exact Hvalid|]. split; [reflexivity|]. split; [reflexivity|].
  split; [vm_compute; reflexivity|]. split; [vm_compute; reflexivity|].
  intros H.
  destruct (H Sample.up Sample.ctx Sample.paged_nil Sample.world Hvalid)
    as (payload & evs & Htrace & _).
  vm_compute in Htrace. discriminate.
Qed.

(** C8. [QueryTx] is partial.  On every request whose filter is the nil map
    and whose [Page] or [Limit] is set, the assignment into the map panics,
    and the world at the panic is the world at the call: no request was
    issued.  [QueryTx] returns exactly on the requests whose filter is not
    nil whenever [Page] or [Limit] is set. *)
Theorem QueryTx_nil_filter_panics svc ctx req w :
  valid_request w req →
  (Query req = None → Page req ≠ None ∨ Limit req ≠ None →
   QueryTx svc ctx req w = (Panicked nil_map_panic, w))
  ∧ ((∃ r w', QueryTx svc ctx req w = (Returned r, w'))
     ↔ (Page req ≠ None ∨ Limit req ≠ None → Query req ≠ None)).
Proof.
  intros (Hp & Hl & Hq).
  apply valid_ref_int_at in Hp as [pv Hp].
  apply valid_ref_int_at in Hl as [lv Hl].
  destruct (Query req) as [l|] eqn:Hquery.
  - destruct Hq as [q Hq]. split; [done|].
    rewrite (QueryTx_run_map svc ctx req w l q pv lv Hquery Hq Hp Hl).
    split; [done|]. intros _. by eexists _, _.
  - rewrite (QueryTx_run_nil svc ctx req w pv lv Hquery Hp Hl).
    destruct (Page req) as [p|], pv as [pn|]; simpl in Hp; try done;
      destruct (Limit req) as [p'|], lv as [ln|]; simpl in Hl; try done;
      (split; [intros _ Hset|split; [intros (r & w' & Hrun)|intros Hpre]]);
      try done; try (by destruct Hset);
      try (by intros [|]); try (by eexists _, _);
      exfalso; apply Hpre; try done; by (left + right).
Qed.

Lemma QueryTx_nil_filter_panics_witness :
  QueryTx Sample.up Sample.ctx Sample.paged_nil Sample.world
  = (Panicked "assignment to entry in nil map", Sample.world)
  ∧ ∃ r w', QueryTx Sample.up Sample.ctx Sample.bare Sample.world = (Returned r, w').
Proof.
  split.
  - eapply (QueryTx_nil_filter_panics Sample.up Sample.ctx Sample.paged_nil
              Sample.world).
    + repeat split. simpl. by exists 2.
    + reflexivity.
    + left. discriminate.
  - eapply (QueryTx_nil_filter_panics Sample.up Sample.ctx Sample.bare
              Sample.world).
    + by repeat split.
    + simpl. intros [?|?]; congruence.
Defined.

(** C9. [QueryTx] writes into the caller's map.  After the call, whether
    the client succeeded or not, the object that the request's [Query]
    refers to holds ["page"] and ["limit"] for the pointers that are not
    nil, and its other entries as they were; every other map of the store
    and every [int64] cell ([*Page] and [*Limit] among them) are as they
    were. *)
Theorem QueryTx_writes_callers_map svc ctx req w l q pv lv :
  Query req = Some l → maps w !! l = Some q →
  int_at w (Page req) pv → int_at w (Limit req) lv →
  let w' := (QueryTx svc ctx req w).2 in
  ∃ q', maps w' !! l = Some q'
        ∧ q' = with_key "limit" lv (with_key "page" pv q)
        ∧ (∀ n, pv = Some n → q' !! "page" = Some (VInt64 n))
        ∧ (∀ n, lv = Some n → q' !! "limit" = Some (VInt64 n))
        ∧ (∀ k, (k = "page" → pv = None) → (k = "limit" → lv = None) →
                q' !! k = q !! k)
        ∧ (∀ l', l' ≠ l → maps w' !! l' = maps w !! l')
        ∧ ints w' = ints w.
Proof.
  intros Hquery Hq Hp Hl w'. subst w'.
  rewrite (QueryTx_run_map svc ctx req w l q pv lv Hquery Hq Hp Hl).
  cbn [snd maps ints].
  eexists. split; [apply lookup_insert_eq|].
  split; [done|].
  repeat split.
  - intros n ->. destruct lv; simpl.
    + rewrite lookup_insert_ne by done. apply lookup_insert_eq.
    + apply lookup_insert_eq.
  - intros n ->. simpl. apply lookup_insert_eq.
  - intros k Hpage Hlimit.
    destruct lv as [ln|], pv as [pn|]; simpl; try done;
      repeat (rewrite lookup_insert_ne;
              [|intros <-;
                first [discriminate (Hpage eq_refl) | discriminate (Hlimit eq_refl)]]);
      done.
  - intros l' Hne. by rewrite lookup_insert_ne.
Qed.

Lemma QueryTx_writes_callers_map_witness :
  maps (QueryTx Sample.down Sample.ctx Sample.paged Sample.world).2 !! 10%positive
  = Some {[ "tx.height" := VInt64 5; "message.action" := VString "send";
            "page" := VInt64 2; "limit" := VInt64 30 ]}
  ∧ ints (QueryTx Sample.down Sample.ctx Sample.paged Sample.world).2
    = ints Sample.world.
Proof.
  destruct (QueryTx_writes_callers_map Sample.down Sample.ctx Sample.paged
              Sample.world 10%positive Sample.filter (Some 2) (Some 30)
              eq_refl eq_refl eq_refl eq_refl)
    as (q' & Hl & Hq' & _ & _ & _ & _ & Hints).
  split; [|exact Hints].
  etransitivity; [exact Hl|]. f_equal.
  etransitivity; [exact Hq'|]. vm_compute. reflexivity.
Defined.

(** ** Failure of the client *)

(** C6. In each of the four methods, a failed client call is the last thing
    the method does (no second request, no pause), and the method returns
    the zero value of its result type with the client's error wrapped with
    ["request json"]. *)
Theorem client_failure_is_wrapped svc :
  (∀ ctx txHash,
     wraps_client_failure cosmostypes.TxResponse_zero TTxResponse (client svc)
       (GetTxByHash svc ctx txHash))
  ∧ (∀ ctx req,
       wraps_client_failure QueryTxResponse_zero TQueryTxResponse (client svc)
         (QueryTx svc ctx req))
  ∧ (∀ ctx tx mode,
       wraps_client_failure cosmostypes.TxResponse_zero TTxResponse (client svc)
         (BroadcastTx svc ctx tx mode))
  ∧ (∀ ctx from msg gasAdjustment gasPrices,
       wraps_client_failure terraauth.StdFee_zero TEstimateFeeBody (client svc)
         (EstimateFee svc ctx from msg gasAdjustment gasPrices)).
Proof.
  unfold wraps_client_failure. split; [|split; [|split]].
  - intros ctx txHash w payload evs err Htrace Herr.
    rewrite GetTxByHash_run in *. cbn [fst snd after trace] in *.
    apply trace_first_inv in Htrace as [[= <-] <-]. by rewrite Herr.
  - intros ctx req w payload evs err Htrace Herr.
    destruct (QueryTx_outcomes svc ctx req w) as
      [(msg & w' & Hrun & Hw')|(p & w' & Hrun & Hw')];
      rewrite Hrun in *; cbn [fst snd] in *; rewrite Hw' in Htrace.
    + by apply trace_extends_inv in Htrace.
    + apply trace_first_inv in Htrace as [[= <-] <-]. by rewrite Herr.
  - intros ctx tx mode w payload evs err Htrace Herr.
    rewrite BroadcastTx_run in *.
    destruct (MarshalJSON _ _) as [raw|e]; cbn [snd] in Htrace.
    + destruct (respond _ _ _ (post_payload _ _ _)) as [body|e] eqn:Hr;
        cbn [fst snd after trace] in *;
        apply trace_first_inv in Htrace as [[= <-] <-];
        rewrite Hr in Herr; by simplify_eq.
    + by apply trace_extends_inv in Htrace.
  - intros ctx from msg gasAdjustment gasPrices w payload evs err Htrace Herr.
    rewrite EstimateFee_run in *.
    destruct (MarshalJSON _ _) as [raw|e]; cbn [fst snd after trace] in *.
    + apply trace_first_inv in Htrace as [[= <-] <-]. by rewrite Herr.
    + by apply trace_extends_inv in Htrace.
Qed.

Lemma client_failure_is_wrapped_witness :
  (GetTxByHash Sample.down Sample.ctx "AB12" Sample.world).1
  = Returned (cosmostypes.TxResponse_zero,
              Some (errors.withMessage Sample.timeout "request json"))
  ∧ (QueryTx Sample.down Sample.ctx Sample.paged Sample.world).1
    = Returned (QueryTxResponse_zero,
                Some (errors.withMessage Sample.timeout "request json"))
  ∧ (BroadcastTx Sample.down Sample.ctx Sample.tx_send Sample.block
       Sample.world).1
    = Returned (cosmostypes.TxResponse_zero,
                Some (errors.withMessage Sample.timeout "request json"))
  ∧ (EstimateFee Sample.down Sample.ctx "terra1from" Sample.sign_send "1.4"
       Sample.prices Sample.world).1
    = Returned (terraauth.StdFee_zero,
                Some (errors.withMessage Sample.timeout "request json")).
Proof.
  destruct (client_failure_is_wrapped Sample.down) as (Hget & Hquery & Hcast & Hfee).
  split; [|split; [|split]].
  - eapply (Hget Sample.ctx "AB12" Sample.world); reflexivity.
  - eapply (Hquery Sample.ctx Sample.paged Sample.world); reflexivity.
  - eapply (Hcast Sample.ctx Sample.tx_send Sample.block Sample.world);
      reflexivity.
  - eapply (Hfee Sample.ctx "terra1from" Sample.sign_send "1.4" Sample.prices
              Sample.world); reflexivity.
Defined.

(** * Further properties of the service *)

Lemma new_events_after w evs : new_events w (after w evs) = evs.
Proof. unfold new_events, after. simpl. by rewrite drop_app_length. Qed.

Lemma new_events_same w : new_events w w = [].
Proof. unfold new_events. by rewrite drop_all. Qed.

Lemma new_events_extended w i m evs :
  new_events w {| ints := i; maps := m; trace := trace w ++ evs |} = evs.
Proof. unfold new_events. simpl. by rewrite drop_app_length. Qed.

Lemma new_events_trace w w' evs :
  trace w' = trace w ++ evs → new_events w w' = evs.
Proof. intros H. unfold new_events. by rewrite H, drop_app_length. Qed.

(** ** What every method keeps *)

(** X1. No method retries: a call keeps the trace it found and adds at most
    one request to it, whatever the codec and the client do. *)
Theorem no_method_retries svc :
  (∀ ctx txHash, at_most_one_request (GetTxByHash svc ctx txHash))
  ∧ (∀ ctx req, at_most_one_request (QueryTx svc ctx req))
  ∧ (∀ ctx tx mode, at_most_one_request (BroadcastTx svc ctx tx mode))
  ∧ (∀ ctx from msg gasAdjustment gasPrices,
       at_most_one_request (EstimateFee svc ctx from msg gasAdjustment gasPrices)).
Proof.
  unfold at_most_one_request. split; [|split; [|split]].
  - intros ctx txHash w. rewrite GetTxByHash_run. cbn [snd].
    by rewrite new_events_after.
  - intros ctx req w.
    destruct (QueryTx_outcomes svc ctx req w) as
      [(msg & w' & -> & Hw')|(p & w' & -> & Hw')]; cbn [snd].
    + rewrite (new_events_trace w w' []) by (by rewrite app_nil_r).
      rewrite app_nil_r. split; [done|simpl; lia].
    + by rewrite (new_events_trace w w' _ Hw').
  - intros ctx tx mode w. rewrite BroadcastTx_run.
    destruct (MarshalJSON _ _) as [raw|e]; [destruct (respond _ _ _ _)|];
      cbn [snd]; rewrite ?new_events_after, ?new_events_same, ?app_nil_r;
      split; try done; simpl; lia.
  - intros ctx from msg gasAdjustment gasPrices w. rewrite EstimateFee_run.
    destruct (MarshalJSON _ _) as [raw|e];
      cbn [snd]; rewrite ?new_events_after, ?new_events_same, ?app_nil_r;
      split; try done; simpl; lia.
Qed.

(** X2. Only [BroadcastTx] pauses, and only after an answered request: it
    sleeps once for a second when the codec marshalled the request and the
    client decoded a response, and not at all when either failed.  The
    other three methods never sleep. *)
Theorem pause_only_after_answered_broadcast svc :
  (∀ ctx tx mode w,
     sleeps (new_events w (BroadcastTx svc ctx tx mode w).2)
     = match MarshalJSON (codec svc)
               (OfBroadcastReq
                  {| cosmosauthrest.Tx := tx;
                     cosmosauthrest.Mode := types.string_of_mode mode |}) with
       | inl raw =>
           match respond (client svc) TTxResponse (trace w)
                   (post_payload ctx "/txs" raw) with
           | inl _ => [1 * time.Second]
           | inr _ => []
           end
       | inr _ => []
       end)
  ∧ (∀ ctx txHash w,
       sleeps (new_events w (GetTxByHash svc ctx txHash w).2) = [])
  ∧ (∀ ctx req w, sleeps (new_events w (QueryTx svc ctx req w).2) = [])
  ∧ (∀ ctx from msg gasAdjustment gasPrices w,
       sleeps (new_events w
                 (EstimateFee svc ctx from msg gasAdjustment gasPrices w).2) = []).
Proof.
  split; [|split; [|split]].
  - intros ctx tx mode w. rewrite BroadcastTx_run.
    change (OfBroadcastReq _) with (OfBroadcastReq (BroadcastTx_req tx mode)).
    destruct (MarshalJSON _ _) as [raw|e]; [destruct (respond _ _ _ _)|];
      cbn [snd]; by rewrite ?new_events_after, ?new_events_same.
  - intros ctx txHash w. rewrite GetTxByHash_run. cbn [snd].
    by rewrite new_events_after.
  - intros ctx req w.
    destruct (QueryTx_outcomes svc ctx req w) as
      [(msg & w' & -> & Hw')|(p & w' & -> & Hw')]; cbn [snd].
    + by rewrite (new_events_trace w w' []) by (by rewrite app_nil_r).
    + by rewrite (new_events_trace w w' _ Hw').
  - intros ctx from msg gasAdjustment gasPrices w. rewrite EstimateFee_run.
    destruct (MarshalJSON _ _) as [raw|e]; cbn [snd];
      by rewrite ?new_events_after, ?new_events_same.
Qed.

(** X3. [GetTxByHash], [BroadcastTx] and [EstimateFee] write nothing: after
    a call, every [int64] cell and every map of the store is what it was. *)
Theorem three_methods_keep_store svc :
  (∀ ctx txHash, keeps_store (GetTxByHash svc ctx txHash))
  ∧ (∀ ctx tx mode, keeps_store (BroadcastTx svc ctx tx mode))
  ∧ (∀ ctx from msg gasAdjustment gasPrices,
       keeps_store (EstimateFee svc ctx from msg gasAdjustment gasPrices)).
Proof.
  unfold keeps_store. split; [|split].
  - intros ctx txHash w. by rewrite GetTxByHash_run.
  - intros ctx tx mode w. rewrite BroadcastTx_run.
    by destruct (MarshalJSON _ _) as [raw|e]; [destruct (respond _ _ _ _)|].
  - intros ctx from msg gasAdjustment gasPrices w. rewrite EstimateFee_run.
    by destruct (MarshalJSON _ _).
Qed.

(** X4. [QueryTx] writes to one place only.  Whatever the request and the
    store, and whether it returns or panics: no [int64] cell changes, no
    map of the store other than the one the request's [Query] refers to
    changes, and with a nil [Query] no map of the store changes at all. *)
Theorem QueryTx_touches_only_the_filter svc ctx req w :
  ints (QueryTx svc ctx req w).2 = ints w
  ∧ (∀ l, Query req ≠ Some l →
          maps (QueryTx svc ctx req w).2 !! l = maps w !! l)
  ∧ (Query req = None → maps (QueryTx svc ctx req w).2 = maps w).
Proof.
  destruct req as [page limit query].
  unfold QueryTx, bind, load_int64, map_assign, map_entries, RequestJSON.
  destruct page as [p|]; [destruct (ints w !! p) as [pn|] eqn:Hp|];
    (destruct query as [l0|]; [destruct (maps w !! l0) as [q|] eqn:Hq|]);
    (destruct limit as [p'|]; [destruct (ints w !! p') as [ln|] eqn:Hl|]);
    unfold ret; run_store; rewrite ?QueryTx_return; cbn [snd ints maps];
    (split; [done|]); (split; [|done]);
    intros l Hne; rewrite ?lookup_insert_ne by congruence; done.
Qed.

Lemma QueryTx_touches_only_the_filter_witness :
  maps (QueryTx Sample.up Sample.ctx Sample.paged_nil Sample.world).2
  = maps Sample.world
  ∧ maps (QueryTx Sample.up Sample.ctx Sample.paged world_two_filters).2
      !! 11%positive
    = Some {[ "tx.height" := VInt64 9 ]}
  ∧ maps (QueryTx Sample.up Sample.ctx Sample.paged world_two_filters).2
      !! 10%positive
    ≠ maps world_two_filters !! 10%positive.
Proof.
  split; [|split].
  - eapply (QueryTx_touches_only_the_filter Sample.up Sample.ctx Sample.paged_nil
              Sample.world). reflexivity.
  - etransitivity.
    + eapply (QueryTx_touches_only_the_filter Sample.up Sample.ctx Sample.paged
                world_two_filters). simpl. discriminate.
    + reflexivity.
  - vm_compute. discriminate.
Defined.

(** ** What the results tell a caller *)

(** X5. A nil error from [BroadcastTx] means exactly that the request was
    marshalled, the client decoded a response, and the code of that
    response is [CodeTypeOK]; the body returned is then that response. *)
Theorem BroadcastTx_nil_error_iff_accepted svc ctx tx mode w body :
  (BroadcastTx svc ctx tx mode w).1 = Returned (body, None)
  ↔ ∃ raw,
      MarshalJSON (codec svc)
        (OfBroadcastReq
           {| cosmosauthrest.Tx := tx;
              cosmosauthrest.Mode := types.string_of_mode mode |}) = inl raw
      ∧ respond (client svc) TTxResponse (trace w) (post_payload ctx "/txs" raw)
        = inl body
      ∧ cosmostypes.Code body = abcitypes.CodeTypeOK.
Proof.
  rewrite BroadcastTx_run.
  change (OfBroadcastReq _) with (OfBroadcastReq (BroadcastTx_req tx mode)).
  unfold abcitypes.CodeTypeOK. split.
  - destruct (MarshalJSON _ _) as [raw|e]; cbn [fst]; [|by intros [=]].
    destruct (respond _ _ _ _) as [b|e] eqn:Hr; cbn [fst]; [|by intros [=]].
    unfold check_code. destruct (decide _); intros [=]; subst. by exists raw.
  - intros (raw & -> & -> & Hcode). cbn [fst]. unfold check_code.
    by destruct (decide _).
Qed.

Lemma BroadcastTx_nil_error_iff_accepted_witness :
  (BroadcastTx Sample.up Sample.ctx Sample.tx_send Sample.block Sample.world).1
  = Returned (Sample.tx_ok, None)
  ∧ (BroadcastTx Sample.rejecting Sample.ctx Sample.tx_send Sample.block
       Sample.world).1 ≠ Returned (Sample.tx_rejected, None).
Proof.
  split.
  - apply (BroadcastTx_nil_error_iff_accepted Sample.up Sample.ctx Sample.tx_send
             Sample.block Sample.world Sample.tx_ok).
    eexists. split; [reflexivity|]. split; reflexivity.
  - intros H.
    apply (BroadcastTx_nil_error_iff_accepted Sample.rejecting Sample.ctx
             Sample.tx_send Sample.block Sample.world Sample.tx_rejected) in H
      as (raw & _ & _ & Hcode).
    vm_compute in Hcode. discriminate.
Defined.

(** X6. Unlike [BroadcastTx], the other three methods never return a result
    next to an error: whenever [GetTxByHash], [QueryTx] or [EstimateFee]
    returns a non-nil error, the value beside it is the zero value of its
    type. *)
Theorem error_comes_with_zero svc :
  (∀ ctx txHash,
     error_means_zero cosmostypes.TxResponse_zero (GetTxByHash svc ctx txHash))
  ∧ (∀ ctx req, error_means_zero QueryTxResponse_zero (QueryTx svc ctx req))
  ∧ (∀ ctx from msg gasAdjustment gasPrices,
       error_means_zero terraauth.StdFee_zero
         (EstimateFee svc ctx from msg gasAdjustment gasPrices)).
Proof.
  unfold error_means_zero. split; [|split].
  - intros ctx txHash w r err. rewrite GetTxByHash_run. cbn [fst].
    destruct (respond _ _ _ _); by intros [=].
  - intros ctx req w r err.
    destruct (QueryTx_outcomes svc ctx req w) as
      [(msg & w' & -> & _)|(p & w' & -> & _)]; cbn [fst]; [by intros [=]|].
    destruct (respond _ _ _ _); by intros [=].
  - intros ctx from msg gasAdjustment gasPrices w r err.
    rewrite EstimateFee_run.
    destruct (MarshalJSON _ _) as [raw|e]; cbn [fst]; [|by intros [=]].
    destruct (respond _ _ _ _); by intros [=].
Qed.

Lemma error_comes_with_zero_witness :
  (QueryTx Sample.down Sample.ctx Sample.paged Sample.world).1
  = Returned (QueryTxResponse_zero,
              Some (errors.withMessage Sample.timeout "request json"))
  ∧ QueryTxResponse_zero = QueryTxResponse_zero.
Proof.
  split; [reflexivity|].
  destruct (error_comes_with_zero Sample.down) as (_ & Hquery & _).
  exact (Hquery Sample.ctx Sample.paged Sample.world QueryTxResponse_zero
           (errors.withMessage Sample.timeout "request json") eq_refl).
Defined.

(** ** The query parameters of [QueryTx] *)

(** X7. The pointers win over the filter.  On a filter that was made, the
    parameter ["page"] of the request is the decimal form of [*Page] when
    [Page] is set, whatever the filter held under ["page"], and the
    formatted filter entry otherwise; likewise for ["limit"]; every other
    parameter is the formatted filter entry of that name, and no other name
    is sent. *)
Theorem QueryTx_pointers_shadow_filter svc ctx req w l q pv lv :
  Query req = Some l → maps w !! l = Some q →
  int_at w (Page req) pv → int_at w (Limit req) lv →
  ∃ query,
    new_events w (QueryTx svc ctx req w).2 = [EvRequest (QueryTx_payload ctx query)]
    ∧ query !! "page"
      = match pv with
        | Some n => Some (pretty n)
        | None => Sprintf_v <$> q !! "page"
        end
    ∧ query !! "limit"
      = match lv with
        | Some n => Some (pretty n)
        | None => Sprintf_v <$> q !! "limit"
        end
    ∧ (∀ k, k ≠ "page" → k ≠ "limit" → query !! k = Sprintf_v <$> q !! k)
    ∧ dom query
      = dom q ∪ match pv with Some _ => {["page"]} | None => ∅ end
              ∪ match lv with Some _ => {["limit"]} | None => ∅ end.
Proof.
  intros Hquery Hq Hp Hl.
  rewrite (QueryTx_run_map svc ctx req w l q pv lv Hquery Hq Hp Hl). cbn [snd].
  eexists. split; [by apply new_events_trace|].
  destruct pv as [pn|], lv as [ln|]; cbn [with_key];
    (split; [|split; [|split]]);
    try (intros k Hpage Hlimit);
    rewrite ?dom_fmap_L, ?dom_insert_L, ?lookup_fmap;
    repeat (rewrite lookup_insert_eq || rewrite lookup_insert_ne by done);
    try done;
    apply set_eq; intros x;
    rewrite ?elem_of_union, ?elem_of_singleton, ?elem_of_empty; tauto.
Qed.

Lemma QueryTx_pointers_shadow_filter_witness :
  ∃ query,
    new_events world_with_page_entry
      (QueryTx Sample.up Sample.ctx Sample.paged world_with_page_entry).2
    = [EvRequest (QueryTx_payload Sample.ctx query)]
    ∧ query !! "page" = Some "2".
Proof.
  edestruct (QueryTx_pointers_shadow_filter Sample.up Sample.ctx Sample.paged
               world_with_page_entry 10%positive {[ "page" := VString "last" ]}
               (Some 2) (Some 30))
    as (query & Hev & Hpage & _); [reflexivity..|].
  exists query. split; [exact Hev | exact Hpage].
Defined.

Lemma with_key_again (q : gmap string value) pv lv pv' lv' :
  pv' = None ∨ pv' = pv → lv' = None ∨ lv' = lv →
  with_key "limit" lv' (with_key "page" pv' (with_key "limit" lv (with_key "page" pv q)))
  = with_key "limit" lv (with_key "page" pv q).
Proof.
  intros [->| ->] [->| ->]; destruct pv as [pn|], lv as [ln|]; cbn [with_key];
    try done; apply map_eq; intros k;
    destruct (decide (k = "page")), (decide (k = "limit"));
    by simplify_map_eq.
Qed.

(** X8. Paging sticks to a shared filter.  After a call that wrote
    ["page"] and ["limit"] into a filter, a second call on the same filter
    whose pointers are nil, or point to the same numbers, sends the very
    same request, the old paging included, and leaves the store as the
    first call left it. *)
Theorem QueryTx_paging_sticks svc ctx req req' w l q pv lv pv' lv' :
  Query req = Some l → maps w !! l = Some q →
  int_at w (Page req) pv → int_at w (Limit req) lv →
  Query req' = Some l →
  int_at w (Page req') pv' → int_at w (Limit req') lv' →
  pv' = None ∨ pv' = pv → lv' = None ∨ lv' = lv →
  let w1 := (QueryTx svc ctx req w).2 in
  let w2 := (QueryTx svc ctx req' w1).2 in
  new_events w1 w2 = new_events w w1
  ∧ new_events w w1
    = [EvRequest
         (QueryTx_payload ctx
            (Sprintf_v <$> with_key "limit" lv (with_key "page" pv q)))]
  ∧ maps w2 = maps w1 ∧ ints w2 = ints w.
Proof.
  intros Hquery Hq Hp Hl Hquery' Hp' Hl' Hpv Hlv w1 w2. subst w2 w1.
  rewrite (QueryTx_run_map svc ctx req w l q pv lv Hquery Hq Hp Hl). cbn [snd].
  set (q1 := with_key "limit" lv (with_key "page" pv q)).
  set (w1 := {| ints := ints w; maps := <[l:=q1]> (maps w); trace := _ |}).
  rewrite (QueryTx_run_map svc ctx req' w1 l q1 pv' lv' Hquery'
             (lookup_insert_eq _ _ _) Hp' Hl').
  assert (with_key "limit" lv' (with_key "page" pv' q1) = q1) as ->
    by (by apply with_key_again).
  cbn [snd]. rewrite new_events_extended.
  assert (new_events w w1 = [EvRequest (QueryTx_payload ctx (Sprintf_v <$> q1))])
    as -> by apply new_events_extended.
  repeat split. unfold w1. cbn [maps]. by rewrite insert_insert_eq.
Qed.

Lemma QueryTx_paging_sticks_witness :
  new_events (QueryTx Sample.up Sample.ctx Sample.paged Sample.world).2
    (QueryTx Sample.up Sample.ctx
       {| Page := None; Limit := None; Query := Some 10%positive |}
       (QueryTx Sample.up Sample.ctx Sample.paged Sample.world).2).2
  = new_events Sample.world
      (QueryTx Sample.up Sample.ctx Sample.paged Sample.world).2.
Proof.
  eapply (QueryTx_paging_sticks Sample.up Sample.ctx Sample.paged
            {| Page := None; Limit := None; Query := Some 10%positive |}
            Sample.world 10%positive Sample.filter (Some 2) (Some 30) None None);
    first [reflexivity | by left].
Defined.

Lemma format_in_order_list_to_map ctx (entries : list (string * value)) :
  format_in_order entries (QueryTx_payload ctx ∅)
  = QueryTx_payload ctx (Sprintf_v <$> list_to_map (reverse entries)).
Proof.
  unfold format_in_order.
  induction entries as [|[k v] entries IH] using rev_ind.
  - simpl. by rewrite fmap_empty.
  - rewrite foldl_snoc, IH, reverse_snoc, list_to_map_cons, fmap_insert.
    done.
Qed.

(** X9. The order in which [range] visits the filter does not show in the
    request: visiting the entries of the filter in any order builds the
    same payload, the one that holds every entry formatted under its own
    key. *)
Theorem range_order_is_irrelevant ctx (q : gmap string value) entries :
  entries ≡ₚ map_to_list q →
  format_in_order entries (QueryTx_payload ctx ∅)
  = QueryTx_payload ctx (Sprintf_v <$> q)
  ∧ format_in_order entries (QueryTx_payload ctx ∅)
    = format_entries q (QueryTx_payload ctx ∅).
Proof.
  intros Hperm.
  assert (list_to_map (reverse entries) = q) as Hq.
  { transitivity (list_to_map (map_to_list q) : gmap string value);
      [|apply list_to_map_to_list].
    symmetry. apply list_to_map_proper; [apply NoDup_fst_map_to_list|].
    by rewrite reverse_Permutation. }
  rewrite format_entries_fmap, format_in_order_list_to_map, Hq. done.
Qed.

Lemma range_order_is_irrelevant_witness :
  format_in_order [("tx.height", VInt64 5); ("message.action", VString "send")]
    (QueryTx_payload Sample.ctx ∅)
  = format_in_order [("message.action", VString "send"); ("tx.height", VInt64 5)]
      (QueryTx_payload Sample.ctx ∅).
Proof.
  assert (map_to_list Sample.filter
          = [("message.action", VString "send"); ("tx.height", VInt64 5)]) as Hlist
    by (vm_compute; reflexivity).
  etransitivity; [|symmetry].
  - apply (range_order_is_irrelevant Sample.ctx Sample.filter).
    rewrite Hlist. apply perm_swap.
  - apply (range_order_is_irrelevant Sample.ctx Sample.filter).
    by rewrite Hlist.
Defined.

(** ** The requests of [GetTxByHash] and of a service made from a client *)

(** X10. The request of [GetTxByHash] tells the hash: from the same world,
    two hashes that lead to the same request are the same hash. *)
Theorem GetTxByHash_request_tells_hash svc ctx h1 h2 w :
  new_events w (GetTxByHash svc ctx h1 w).2
  = new_events w (GetTxByHash svc ctx h2 w).2 →
  h1 = h2.
Proof.
  rewrite !GetTxByHash_run. cbn [snd]. rewrite !new_events_after.
  unfold GetTxByHash_payload. simpl. by intros [=].
Qed.

Lemma GetTxByHash_request_tells_hash_witness : "AB12" = "AB12".
Proof.
  apply (GetTxByHash_request_tells_hash Sample.up Sample.ctx "AB12" "AB12"
           Sample.world).
  reflexivity.
Defined.

(** X11. A service made by [NewTransactionService] from a client marshals
    with the codec of that client: a body that reaches the client in a
    request of [BroadcastTx] or [EstimateFee] is what the client's own codec
    gave for the value of that method, and the request is a POST to the
    path of the method. *)
Theorem NewTransactionService_sends_own_encoding c ctx w payload evs :
  (∀ tx mode,
     new_events w (BroadcastTx (NewTransactionService c) ctx tx mode w).2
     = EvRequest payload :: evs →
     ∃ raw,
       MarshalJSON (client_Codec c)
         (OfBroadcastReq
            {| cosmosauthrest.Tx := tx;
               cosmosauthrest.Mode := types.string_of_mode mode |}) = inl raw
       ∧ payload = post_payload ctx "/txs" raw)
  ∧ (∀ from msg gasAdjustment gasPrices,
       new_events w
         (EstimateFee (NewTransactionService c) ctx from msg gasAdjustment
            gasPrices w).2
       = EvRequest payload :: evs →
       ∃ raw,
         MarshalJSON (client_Codec c)
           (OfEstimateFeeReq (EstimateFee_req from msg gasAdjustment gasPrices))
         = inl raw
         ∧ payload = post_payload ctx "/txs/estimate_fee" raw).
Proof.
  split.
  - intros tx mode. rewrite BroadcastTx_run.
    change (OfBroadcastReq {| cosmosauthrest.Tx := tx; cosmosauthrest.Mode := _ |})
      with (OfBroadcastReq (BroadcastTx_req tx mode)).
    cbn [codec client NewTransactionService].
    destruct (MarshalJSON _ _) as [raw|e]; [destruct (respond _ _ _ _)|];
      cbn [snd]; rewrite ?new_events_after, ?new_events_same;
      intros [=]; subst; by exists raw.
  - intros from msg gasAdjustment gasPrices. rewrite EstimateFee_run.
    cbn [codec client NewTransactionService].
    destruct (MarshalJSON _ _) as [raw|e];
      cbn [snd]; rewrite ?new_events_after, ?new_events_same;
      intros [=]; subst; by exists raw.
Qed.

Lemma NewTransactionService_sends_own_encoding_witness :
  ∃ raw,
    MarshalJSON Sample.cdc
      (OfBroadcastReq (BroadcastTx_req Sample.tx_send Sample.block)) = inl raw
    ∧ post_payload Sample.ctx "/txs"
        (String.list_byte_of_string
           (Sample.render
              (OfBroadcastReq (BroadcastTx_req Sample.tx_send Sample.block))))
      = post_payload Sample.ctx "/txs" raw.
Proof.
  eapply (NewTransactionService_sends_own_encoding
            (Sample.stub Sample.cdc (inl Sample.tx_ok) (inl Sample.page_one)
               (inl Sample.fee_body))
            Sample.ctx Sample.world _ [EvSleep 1000000000]).
  reflexivity.
Defined.

(** X12. A nil error is never made up.  When [GetTxByHash], [QueryTx] or
    [EstimateFee] returns a nil error, the call issued exactly one request,
    the client answered it without error, and the value returned is the
    decoded answer (for [EstimateFee], the fee under its result). *)
Theorem nil_error_means_answered svc ctx w :
  (∀ txHash r,
     (GetTxByHash svc ctx txHash w).1 = Returned (r, None) →
     ∃ payload,
       new_events w (GetTxByHash svc ctx txHash w).2 = [EvRequest payload]
       ∧ respond (client svc) TTxResponse (trace w) payload = inl r)
  ∧ (∀ req r,
       (QueryTx svc ctx req w).1 = Returned (r, None) →
       ∃ payload,
         new_events w (QueryTx svc ctx req w).2 = [EvRequest payload]
         ∧ respond (client svc) TQueryTxResponse (trace w) payload = inl r)
  ∧ (∀ from msg gasAdjustment gasPrices fee,
       (EstimateFee svc ctx from msg gasAdjustment gasPrices w).1
       = Returned (fee, None) →
       ∃ payload body,
         new_events w (EstimateFee svc ctx from msg gasAdjustment gasPrices w).2
         = [EvRequest payload]
         ∧ respond (client svc) TEstimateFeeBody (trace w) payload = inl body
         ∧ fee = r_Fee (b_Result body)).
Proof.
  split; [|split].
  - intros txHash r. rewrite GetTxByHash_run. cbn [fst snd].
    rewrite new_events_after.
    destruct (respond _ _ _ _) as [body|e] eqn:Hr; intros [=]; subst.
    by eexists.
  - intros req r.
    destruct (QueryTx_outcomes svc ctx req w) as
      [(msg & w' & -> & _)|(p & w' & -> & Hw')]; cbn [fst snd];
      [by intros [=]|].
    rewrite (new_events_trace w w' _ Hw').
    destruct (respond _ _ _ _) as [body|e] eqn:Hr; intros [=]; subst.
    by eexists.
  - intros from msg gasAdjustment gasPrices fee. rewrite EstimateFee_run.
    destruct (MarshalJSON _ _) as [raw|e]; cbn [fst snd]; [|by intros [=]].
    rewrite new_events_after.
    destruct (respond _ _ _ _) as [body|e] eqn:Hr; intros [=]; subst.
    by eexists _, _.
Qed.

Lemma nil_error_means_answered_witness :
  ∃ payload body,
    new_events Sample.world
      (EstimateFee Sample.up Sample.ctx "terra1from" Sample.sign_send "1.4"
         Sample.prices Sample.world).2 = [EvRequest payload]
    ∧ respond (client Sample.up) TEstimateFeeBody (trace Sample.world) payload
      = inl body
    ∧ Sample.fee = r_Fee (b_Result body).
Proof.
  eapply (nil_error_means_answered Sample.up Sample.ctx Sample.world).
  reflexivity.
Defined.
